(** * The trading-account ledger of [accounts.py]

    A shallow embedding of [src/output/accounts.py]: the transaction
    record, the price table, the [Account] class with its replay of the
    transaction log, its four mutators and its read-only queries.

    Modelling conventions.
    - Amounts, prices and share quantities are Python floats in the
      source.  The class is embedded over [Z], which agrees with the
      source wherever the float arithmetic is exact; over it are proved the
      properties that do not rest on exact sums: which exception a call
      raises, what the log looks like, comparisons, and sums to which a
      new record contributes the last term.  The module [Binary64] embeds
      the recording, the replay and the balance queries a second time over
      binary64 floats; the properties of the sums themselves are proved
      there.
    - A [datetime] the class normalises is modelled by the instant it
      denotes once normalised to UTC, an integer number of clock ticks.
      The bounds of [transaction_history], which the class does not
      normalise, keep the distinction between a [datetime] with a timezone
      and one without.  The clock read [datetime.utcnow()] is the explicit
      argument [now] of the methods that read it.
    - A method of the class is a computation over the object: it receives
      [self] and returns its outcome (an exception or a value) together
      with the object as the call leaves it.  A raised exception does not
      roll anything back, exactly as in Python.
    - Exceptions are identified by their class; messages are not
      modelled. *)

From stdpp Require Import gmap strings list fin_maps sorting.
From Corelib Require Import PrimFloat.
From Stdlib Require Import Floats.SpecFloat Floats.FloatOps.

Open Scope Z_scope.

(** ** Exceptions *)

Inductive exn : Type :=
| ValueError
| InsufficientFundsError
| InsufficientHoldingsError
| InvalidSymbolError
| InvalidQuantityError
| AttributeError
| TypeError.

#[global] Instance exn_eq_dec : EqDecision exn.
Proof. solve_decision. Defined.

(** ** Transactions *)

Inductive tx_type : Type := Deposit | Withdraw | Buy | Sell.

#[global] Instance tx_type_eq_dec : EqDecision tx_type.
Proof. solve_decision. Defined.

Record Transaction : Type := mkTransaction {
  timestamp : Z;
  type : tx_type;
  symbol : option string;
  quantity : Z;
  price_per_share : option Z;
  total_amount : Z
}.

#[global] Instance Transaction_eq_dec : EqDecision Transaction.
Proof. solve_decision. Defined.

(** ** The price table *)

Definition prices : gmap string Z :=
  <["AAPL" := 150]> (<["TSLA" := 800]> (<["GOOGL" := 2800]> ∅)).

Definition get_share_price (symbol : string) : exn + Z :=
  match prices !! symbol with
  | None => inl InvalidSymbolError
  | Some p => inr p
  end.

(** ** Python values that receive a method call

    [sell] calls [.get] on a value whose run-time class decides whether the
    call exists: a [dict] answers, a [float] raises [AttributeError]. *)

Inductive pyval : Type :=
| PyFloat (x : Z)
| PyDict (d : gmap string Z).

Definition py_get (o : pyval) (key : string) (dflt : Z) : exn + Z :=
  match o with
  | PyDict d => inr (default dflt (d !! key))
  | PyFloat _ => inl AttributeError
  end.

(** Truthiness of an [Optional[str]]: [None] and the empty string are
    false. *)
Definition truthy (s : option string) : option string :=
  match s with
  | Some EmptyString => None
  | other => other
  end.

(** ** The object and the monad of its methods *)

Record Account : Type := mkAccount {
  _initial_deposit : Z;
  _transactions : list Transaction
}.

Definition M (A : Type) : Type := Account → (exn + A) * Account.

#[global] Instance M_ret : MRet M := λ _ x self, (inr x, self).

#[global] Instance M_bind : MBind M := λ _ _ k m self,
  match m self with
  | (inl e, self') => (inl e, self')
  | (inr x, self') => k x self'
  end.

Definition raise {A} (e : exn) : M A := λ self, (inl e, self).

(** [if b: raise e] *)
Definition raise_if (b : bool) (e : exn) : M unit :=
  if b then raise e else mret tt.

(** A call of a function that is not a method of the object. *)
Definition lift {A} (r : exn + A) : M A :=
  match r with
  | inl e => raise e
  | inr x => mret x
  end.

Definition get_transactions : M (list Transaction) :=
  λ self, (inr (_transactions self), self).

Definition get_initial_deposit : M Z :=
  λ self, (inr (_initial_deposit self), self).

Definition append_transaction (tx : Transaction) : M unit :=
  λ self,
    (inr tt, {| _initial_deposit := _initial_deposit self;
                _transactions := _transactions self ++ [tx] |}).

(** [timestamp or datetime.utcnow()]: a [datetime] is always true. *)
Definition or_now (timestamp : option Z) (now : Z) : Z :=
  default now timestamp.

(** ** Recording *)

Definition _record_transaction (timestamp : Z) (type : tx_type)
    (symbol : option string) (quantity : Z) (price_per_share : option Z)
    (total_amount : Z) : M unit :=
  append_transaction
    (mkTransaction timestamp type symbol quantity price_per_share
       total_amount).

Definition deposit (amount : Z) (timestamp : option Z) (now : Z) : M unit :=
  raise_if (amount <=? 0) ValueError;;
  let ts := or_now timestamp now in
  _record_transaction ts Deposit None 0 None amount.

(** ** Replay *)

(** [sorted(..., key=lambda t: t.timestamp)]: a stable sort; an element
    goes in front of the first one whose key is not smaller. *)
Fixpoint insert_by_timestamp (tx : Transaction) (l : list Transaction)
    : list Transaction :=
  match l with
  | [] => [tx]
  | y :: l' =>
      if timestamp tx <=? timestamp y then tx :: y :: l'
      else y :: insert_by_timestamp tx l'
  end.

Fixpoint sorted_by_timestamp (l : list Transaction) : list Transaction :=
  match l with
  | [] => []
  | tx :: l' => insert_by_timestamp tx (sorted_by_timestamp l')
  end.

Definition is_trade (t : tx_type) : bool :=
  match t with
  | Buy | Sell => true
  | _ => false
  end.

(** One iteration of the loop body after the [break] test. *)
Definition apply_tx (tx : Transaction) (st : Z * gmap string Z)
    : Z * gmap string Z :=
  let '(cash, holdings) := st in
  let cash := cash + total_amount tx in
  let holdings :=
    match (if is_trade (type tx) then truthy (symbol tx) else None) with
    | Some sym =>
        <[sym := default 0 (holdings !! sym) + quantity tx]> holdings
    | None => holdings
    end in
  (cash, holdings).

(** The [for] loop over the sorted log, left at the first later record. *)
Fixpoint replay_loop (up_to : Z) (txs : list Transaction)
    (st : Z * gmap string Z) : Z * gmap string Z :=
  match txs with
  | [] => st
  | tx :: rest =>
      if up_to <? timestamp tx then st
      else replay_loop up_to rest (apply_tx tx st)
  end.

Definition _apply_transactions_up_to (up_to : Z) : M (Z * gmap string Z) :=
  txs ← get_transactions;
  mret (replay_loop up_to (sorted_by_timestamp txs) (0, ∅)).

(** [max(tx.timestamp for tx in ...)]; [max] of nothing is a
    [ValueError]. *)
Fixpoint max_timestamp (txs : list Transaction) : option Z :=
  match txs with
  | [] => None
  | tx :: rest =>
      match max_timestamp rest with
      | None => Some (timestamp tx)
      | Some m => Some (Z.max (timestamp tx) m)
      end
  end.

Definition _latest_timestamp : M Z :=
  txs ← get_transactions;
  match max_timestamp txs with
  | None => raise ValueError
  | Some m => mret m
  end.

(** ** The mutators as first defined in the class body

    [withdraw], [buy] and [sell] are each defined twice in the class; the
    class keeps the later definition.  The earlier ones are kept here under
    the suffix [_first]. *)

Definition withdraw_first (amount : Z) (timestamp : option Z) (now : Z)
    : M unit :=
  raise_if (amount <=? 0) ValueError;;
  up_to ← match timestamp with
           | None => _latest_timestamp
           | Some t => mret t
           end;
  '(cash, _) ← _apply_transactions_up_to up_to;
  raise_if (cash <? amount) InsufficientFundsError;;
  let ts := or_now timestamp now in
  _record_transaction ts Withdraw None 0 None (- amount).

Definition buy_first (symbol : string) (quantity : Z)
    (timestamp : option Z) (now : Z) : M unit :=
  raise_if (quantity <=? 0) InvalidQuantityError;;
  price ← lift (get_share_price symbol);
  let cost := price * quantity in
  up_to ← match timestamp with
           | None => _latest_timestamp
           | Some t => mret t
           end;
  '(cash, holdings) ← _apply_transactions_up_to up_to;
  raise_if (cash <? cost) InsufficientFundsError;;
  let ts := or_now timestamp now in
  _record_transaction ts Buy (Some symbol) quantity (Some price) (- cost).

Definition sell_first (symbol : string) (quantity : Z)
    (timestamp : option Z) (now : Z) : M unit :=
  raise_if (quantity <=? 0) InvalidQuantityError;;
  let ts := or_now timestamp now in
  '(cash, holdings) ← _apply_transactions_up_to ts;
  current_qty ← lift (py_get (PyDict holdings) symbol 0);
  raise_if (current_qty <? quantity) InsufficientHoldingsError;;
  price ← lift (get_share_price symbol);
  let proceeds := price * quantity in
  _record_transaction ts Sell (Some symbol) (- quantity) (Some price)
    proceeds.

(** ** Queries *)

(** [as_of or self._latest_timestamp()] *)
Definition or_latest (as_of : option Z) : M Z :=
  match as_of with
  | Some t => mret t
  | None => _latest_timestamp
  end.

(** The loop of [portfolio_value] over [holdings.items()].  The items
    come in the order of the finite map rather than in insertion order;
    the sum does not depend on it, nor does the class of the exception. *)
Fixpoint market_value_loop (items : list (string * Z)) (market_value : Z)
    : exn + Z :=
  match items with
  | [] => inr market_value
  | (symbol, qty) :: rest =>
      if qty =? 0 then market_value_loop rest market_value
      else
        match get_share_price symbol with
        | inl e => inl e
        | inr price => market_value_loop rest (market_value + qty * price)
        end
  end.

Definition portfolio_value (as_of : option Z) : M Z :=
  ts ← or_latest as_of;
  '(cash, holdings) ← _apply_transactions_up_to ts;
  market_value ← lift (market_value_loop (map_to_list holdings) 0);
  mret (cash + market_value).

Definition profit_loss (as_of : option Z) : M Z :=
  value ← portfolio_value as_of;
  initial ← get_initial_deposit;
  mret (value - initial).

Definition holdings (as_of : option Z) : M (gmap string Z) :=
  ts ← or_latest as_of;
  '(_, holdings) ← _apply_transactions_up_to ts;
  mret (filter (λ kv, kv.2 ≠ 0) holdings).

(** The bounds of [transaction_history] are the only [datetime]
    arguments the class does not normalise.  One that carries a timezone
    denotes an instant; one that carries none is a wall-clock reading. *)
Inductive datetime : Type :=
| Aware (instant : Z)
| Naive (wall_clock : Z).

(** [t < d] and [t > d] for a stored timestamp [t], which always carries
    a timezone: Python raises [TypeError] when asked to order it against a
    [datetime] that carries none. *)
Definition stored_lt (t : Z) (d : datetime) : exn + bool :=
  match d with
  | Aware u => inr (t <? u)
  | Naive _ => inl TypeError
  end.

Definition stored_gt (t : Z) (d : datetime) : exn + bool :=
  match d with
  | Aware u => inr (u <? t)
  | Naive _ => inl TypeError
  end.

(** The loop of [transaction_history], [result] being the list built so
    far; a bound that is [None] is false in the [and], so its comparison
    is not made. *)
Fixpoint history_loop (since until : option datetime)
    (txs : list Transaction) (result : list Transaction)
    : exn + list Transaction :=
  match txs with
  | [] => inr result
  | tx :: rest =>
      match match since with
            | Some s => stored_lt (timestamp tx) s
            | None => inr false
            end
      with
      | inl e => inl e
      | inr true => history_loop since until rest result
      | inr false =>
          match match until with
                | Some u => stored_gt (timestamp tx) u
                | None => inr false
                end
          with
          | inl e => inl e
          | inr true => history_loop since until rest result
          | inr false => history_loop since until rest (result ++ [tx])
          end
      end
  end.

Definition transaction_history (since until : option datetime)
    : M (list Transaction) :=
  txs ← get_transactions;
  lift (history_loop since until txs []).

Definition cash_balance (as_of : option Z) : M Z :=
  ts ← or_latest as_of;
  '(cash, _) ← _apply_transactions_up_to ts;
  mret cash.

(** ** The mutators the class keeps *)

Definition withdraw (amount : Z) (timestamp : option Z) (now : Z)
    : M unit :=
  raise_if (amount <=? 0) ValueError;;
  let ts := or_now timestamp now in
  '(cash_before, _) ← _apply_transactions_up_to ts;
  raise_if (cash_before <? amount) InsufficientFundsError;;
  _record_transaction ts Withdraw None 0 None (- amount).

Definition buy (symbol : string) (quantity : Z) (timestamp : option Z)
    (now : Z) : M unit :=
  raise_if (quantity <=? 0) InvalidQuantityError;;
  let ts := or_now timestamp now in
  price ← lift (get_share_price symbol);
  let cost := price * quantity in
  '(cash_before, _) ← _apply_transactions_up_to ts;
  raise_if (cash_before <? cost) InsufficientFundsError;;
  _record_transaction ts Buy (Some symbol) quantity (Some price) (- cost).

(** The tuple returned by the replay is (cash, holdings); this definition
    binds its first component, the cash, to [holdings_before] and calls
    [.get] on it. *)
Definition sell (symbol : string) (quantity : Z) (timestamp : option Z)
    (now : Z) : M unit :=
  raise_if (quantity <=? 0) InvalidQuantityError;;
  let ts := or_now timestamp now in
  '(holdings_before, _) ← _apply_transactions_up_to ts;
  current_qty ← lift (py_get (PyFloat holdings_before) symbol 0);
  raise_if (current_qty <? quantity) InsufficientHoldingsError;;
  price ← lift (get_share_price symbol);
  let proceeds := price * quantity in
  _record_transaction ts Sell (Some symbol) (- quantity) (Some price)
    proceeds.

(** ** Construction *)

(** [self._initial_deposit = ...; self._transactions = []] *)
Definition set_fields (initial_deposit : Z) : M unit :=
  λ _, (inr tt, {| _initial_deposit := initial_deposit;
                   _transactions := [] |}).

Definition __init__ (initial_deposit : Z) (now : Z) : M unit :=
  raise_if (initial_deposit <=? 0) ValueError;;
  set_fields initial_deposit;;
  _record_transaction now Deposit None 0 None initial_deposit.

(** [Account(initial_deposit)]: the object [__init__] leaves, unless it
    raises. *)
Definition Account_new (initial_deposit : Z) (now : Z) : exn + Account :=
  match __init__ initial_deposit now (mkAccount 0 []) with
  | (inl e, _) => inl e
  | (inr _, self) => inr self
  end.

(** ** Sequences of calls

    A caller drives the object by a sequence of calls of its mutators,
    each made at some reading [now] of the clock. *)

Inductive call : Type :=
| Call_deposit (amount : Z) (timestamp : option Z)
| Call_withdraw (amount : Z) (timestamp : option Z)
| Call_buy (symbol : string) (quantity : Z) (timestamp : option Z)
| Call_sell (symbol : string) (quantity : Z) (timestamp : option Z).

Definition perform (c : call) (now : Z) : M unit :=
  match c with
  | Call_deposit amount timestamp => deposit amount timestamp now
  | Call_withdraw amount timestamp => withdraw amount timestamp now
  | Call_buy symbol quantity timestamp => buy symbol quantity timestamp now
  | Call_sell symbol quantity timestamp => sell symbol quantity timestamp now
  end.

(** Calls made one after the other; the first exception ends the
    sequence, so the sequence returns normally exactly when every call
    was accepted. *)
Fixpoint perform_all (cs : list (call * Z)) : M unit :=
  match cs with
  | [] => mret tt
  | (c, now) :: rest => perform c now;; perform_all rest
  end.

(** The accounts a program can hold: a freshly built one, and what any
    call, accepted or refused, leaves of such an account. *)
Inductive reachable : Account → Prop :=
| reachable_new initial_deposit now self :
    Account_new initial_deposit now = inr self → reachable self
| reachable_call self c now r self' :
    reachable self → perform c now self = (r, self') → reachable self'.

(** ** The quantities the properties speak of *)

Definition Zsum (l : list Z) : Z := foldr Z.add 0 l.

(** The recorded transactions dated [T] or earlier, in recorded order. *)
Definition recorded_up_to (T : Z) (txs : list Transaction)
    : list Transaction :=
  filter (λ tx, timestamp tx ≤ T) txs.

(** A buy or sell transaction on [sym]. *)
Definition trade_on (sym : string) (tx : Transaction) : Prop :=
  is_trade (type tx) = true ∧ symbol tx = Some sym.

#[global] Instance trade_on_dec sym tx : Decision (trade_on sym tx).
Proof. unfold trade_on. apply _. Defined.

(** Sum of the signed quantities of the trades on [sym]. *)
Definition net_quantity (sym : string) (txs : list Transaction) : Z :=
  Zsum (quantity <$> filter (trade_on sym) txs).

(** [since <= t <= until], a bound that is not set being no bound. *)
Definition in_range (since until : option Z) (t : Z) : Prop :=
  match since with Some s => s ≤ t | None => True end ∧
  match until with Some u => t ≤ u | None => True end.

#[global] Instance in_range_dec since until t :
  Decision (in_range since until t).
Proof. unfold in_range. destruct since, until; apply _. Defined.

(** The loop body run over every record of a list, no [break]. *)
Definition apply_all (st : Z * gmap string Z) (txs : list Transaction)
    : Z * gmap string Z :=
  foldl (λ st tx, apply_tx tx st) st txs.

(** The replayed cash as of [T]. *)
Definition cash_as_of (T : Z) (self : Account) : Z :=
  (replay_loop T (sorted_by_timestamp (_transactions self)) (0, ∅)).1.


(** The replayed holdings of [sym] as of [T]. *)
Definition held_as_of (T : Z) (sym : string) (self : Account) : Z :=
  default 0
    ((replay_loop T (sorted_by_timestamp (_transactions self)) (0, ∅)).2
       !! sym).


(** Every symbol a record names is in the price table. *)
Definition symbols_priced (txs : list Transaction) : Prop :=
  Forall (λ tx, ∀ s, symbol tx = Some s → is_Some (prices !! s)) txs.

(** A withdrawal or a purchase. *)
Definition is_debit (tx : Transaction) : Prop :=
  type tx = Withdraw ∨ type tx = Buy.

#[global] Instance is_debit_dec tx : Decision (is_debit tx).
Proof. unfold is_debit. apply _. Defined.

(** The log is in chronological order: no call was dated before a record
    already in the log. *)
Definition chronological (txs : list Transaction) : Prop :=
  StronglySorted (λ x y, timestamp x ≤ timestamp y) txs.


(** A query leaves the object as it found it, and asked again it answers
    the same. *)
Definition repeatable {A} (q : M A) : Prop :=
  ∀ self, (q self).2 = self ∧ (q (q self).2) = q self.

(** The condition under which the two definitions of [withdraw] and
    [buy] replay the same records: the call carries its timestamp, or it
    carries none and no record is dated after the clock. *)
Definition clock_covers_log (timestamp : option Z) (now : Z)
    (self : Account) : Prop :=
  match timestamp with
  | Some _ => True
  | None =>
      match max_timestamp (_transactions self) with
      | Some m => m ≤ now
      | None => False
      end
  end.

(** ** The quantities the further properties speak of *)

(** The timestamp argument of a call. *)
Definition call_timestamp (c : call) : option Z :=
  match c with
  | Call_deposit _ timestamp => timestamp
  | Call_withdraw _ timestamp => timestamp
  | Call_buy _ _ timestamp => timestamp
  | Call_sell _ _ timestamp => timestamp
  end.

(** Shares valued at a price table: over the symbols of the table, the
    sum of the shares held times the price. *)
Definition table_value (table : gmap string Z) (held : string → Z) : Z :=
  Zsum ((λ sp : string * Z, held sp.1 * sp.2) <$> map_to_list table).

(** The shape of the record each kind of call writes: which fields are
    set, and the signs of the quantity and of the amount. *)
Definition well_formed (tx : Transaction) : Prop :=
  match type tx with
  | Deposit =>
      symbol tx = None ∧ quantity tx = 0 ∧ price_per_share tx = None ∧
      0 < total_amount tx
  | Withdraw =>
      symbol tx = None ∧ quantity tx = 0 ∧ price_per_share tx = None ∧
      total_amount tx < 0
  | Buy =>
      ∃ s p, symbol tx = Some s ∧ prices !! s = Some p ∧
             price_per_share tx = Some p ∧ 0 < quantity tx ∧
             total_amount tx = - (p * quantity tx)
  | Sell =>
      ∃ s p, symbol tx = Some s ∧ prices !! s = Some p ∧
             price_per_share tx = Some p ∧ quantity tx < 0 ∧
             total_amount tx = p * - quantity tx
  end.

(** What an accepted call adds to the cash, and to the shares held of
    [sym]. *)
Definition cash_effect (c : call) : Z :=
  match c with
  | Call_deposit amount _ => amount
  | Call_withdraw amount _ => - amount
  | Call_buy symbol quantity _ => - (default 0 (prices !! symbol) * quantity)
  | Call_sell symbol quantity _ => default 0 (prices !! symbol) * quantity
  end.

Definition share_effect (c : call) (sym : string) : Z :=
  match c with
  | Call_buy symbol quantity _ => if decide (symbol = sym) then quantity else 0
  | Call_sell symbol quantity _ =>
      if decide (symbol = sym) then - quantity else 0
  | _ => 0
  end.





(** The kind of record a call writes. *)
Definition call_type (c : call) : tx_type :=
  match c with
  | Call_deposit _ _ => Deposit
  | Call_withdraw _ _ => Withdraw
  | Call_buy _ _ _ => Buy
  | Call_sell _ _ _ => Sell
  end.

(** * The arithmetic as the class does it

    The part of the class whose results depend on rounding, with amounts,
    prices and quantities as binary64 floats, the [float] of Python:
    recording, replay, the cash and holdings queries, and the constructor,
    [deposit], [withdraw] and [buy], which build the logs.  Timestamps,
    exceptions and the threading of the object are as above. *)

Module Binary64.

Record Transaction : Type := mkTransaction {
  timestamp : Z;
  type : tx_type;
  symbol : option string;
  quantity : float;
  price_per_share : option float;
  total_amount : float
}.

Definition prices : gmap string float :=
  <["AAPL" := 150%float]>
    (<["TSLA" := 800%float]> (<["GOOGL" := 2800%float]> ∅)).

Definition get_share_price (symbol : string) : exn + float :=
  match prices !! symbol with
  | None => inl InvalidSymbolError
  | Some p => inr p
  end.

Record Account : Type := mkAccount {
  _initial_deposit : float;
  _transactions : list Transaction
}.

Definition M (A : Type) : Type := Account → (exn + A) * Account.

#[global] Instance M_ret : MRet M := λ _ x self, (inr x, self).

#[global] Instance M_bind : MBind M := λ _ _ k m self,
  match m self with
  | (inl e, self') => (inl e, self')
  | (inr x, self') => k x self'
  end.

Definition raise {A} (e : exn) : M A := λ self, (inl e, self).

Definition raise_if (b : bool) (e : exn) : M unit :=
  if b then raise e else mret tt.

Definition lift {A} (r : exn + A) : M A :=
  match r with
  | inl e => raise e
  | inr x => mret x
  end.

Definition get_transactions : M (list Transaction) :=
  λ self, (inr (_transactions self), self).

Definition append_transaction (tx : Transaction) : M unit :=
  λ self,
    (inr tt, {| _initial_deposit := _initial_deposit self;
                _transactions := _transactions self ++ [tx] |}).

Definition _record_transaction (timestamp : Z) (type : tx_type)
    (symbol : option string) (quantity : float)
    (price_per_share : option float) (total_amount : float) : M unit :=
  append_transaction
    (mkTransaction timestamp type symbol quantity price_per_share
       total_amount).

Definition deposit (amount : float) (timestamp : option Z) (now : Z)
    : M unit :=
  raise_if (amount <=? 0)%float ValueError;;
  let ts := or_now timestamp now in
  _record_transaction ts Deposit None 0%float None amount.

Fixpoint insert_by_timestamp (tx : Transaction) (l : list Transaction)
    : list Transaction :=
  match l with
  | [] => [tx]
  | y :: l' =>
      if (timestamp tx <=? timestamp y)%Z then tx :: y :: l'
      else y :: insert_by_timestamp tx l'
  end.

Fixpoint sorted_by_timestamp (l : list Transaction) : list Transaction :=
  match l with
  | [] => []
  | tx :: l' => insert_by_timestamp tx (sorted_by_timestamp l')
  end.

Definition apply_tx (tx : Transaction) (st : float * gmap string float)
    : float * gmap string float :=
  let '(cash, holdings) := st in
  let cash := (cash + total_amount tx)%float in
  let holdings :=
    match (if is_trade (type tx) then truthy (symbol tx) else None) with
    | Some sym =>
        <[sym := (default 0%float (holdings !! sym) + quantity tx)%float]>
          holdings
    | None => holdings
    end in
  (cash, holdings).

Fixpoint replay_loop (up_to : Z) (txs : list Transaction)
    (st : float * gmap string float) : float * gmap string float :=
  match txs with
  | [] => st
  | tx :: rest =>
      if (up_to <? timestamp tx)%Z then st
      else replay_loop up_to rest (apply_tx tx st)
  end.

Definition _apply_transactions_up_to (up_to : Z)
    : M (float * gmap string float) :=
  txs ← get_transactions;
  mret (replay_loop up_to (sorted_by_timestamp txs) (0%float, ∅)).

Fixpoint max_timestamp (txs : list Transaction) : option Z :=
  match txs with
  | [] => None
  | tx :: rest =>
      match max_timestamp rest with
      | None => Some (timestamp tx)
      | Some m => Some (Z.max (timestamp tx) m)
      end
  end.

Definition _latest_timestamp : M Z :=
  txs ← get_transactions;
  match max_timestamp txs with
  | None => raise ValueError
  | Some m => mret m
  end.

Definition or_latest (as_of : option Z) : M Z :=
  match as_of with
  | Some t => mret t
  | None => _latest_timestamp
  end.

(** [qty != 0.0] is the negation of the float equality: it drops both
    zeros and keeps a NaN. *)
Definition holdings (as_of : option Z) : M (gmap string float) :=
  ts ← or_latest as_of;
  '(_, holdings) ← _apply_transactions_up_to ts;
  mret (filter (λ kv, (kv.2 =? 0)%float = false) holdings).

Definition cash_balance (as_of : option Z) : M float :=
  ts ← or_latest as_of;
  '(cash, _) ← _apply_transactions_up_to ts;
  mret cash.

Definition withdraw (amount : float) (timestamp : option Z) (now : Z)
    : M unit :=
  raise_if (amount <=? 0)%float ValueError;;
  let ts := or_now timestamp now in
  '(cash_before, _) ← _apply_transactions_up_to ts;
  raise_if (cash_before <? amount)%float InsufficientFundsError;;
  _record_transaction ts Withdraw None 0%float None (- amount)%float.

Definition buy (symbol : string) (quantity : float)
    (timestamp : option Z) (now : Z) : M unit :=
  raise_if (quantity <=? 0)%float InvalidQuantityError;;
  let ts := or_now timestamp now in
  price ← lift (get_share_price symbol);
  let cost := (price * quantity)%float in
  '(cash_before, _) ← _apply_transactions_up_to ts;
  raise_if (cash_before <? cost)%float InsufficientFundsError;;
  _record_transaction ts Buy (Some symbol) quantity (Some price)
    (- cost)%float.

Definition set_fields (initial_deposit : float) : M unit :=
  λ _, (inr tt, {| _initial_deposit := initial_deposit;
                   _transactions := [] |}).

Definition __init__ (initial_deposit : float) (now : Z) : M unit :=
  raise_if (initial_deposit <=? 0)%float ValueError;;
  set_fields initial_deposit;;
  _record_transaction now Deposit None 0%float None initial_deposit.

Definition Account_new (initial_deposit : float) (now : Z)
    : exn + Account :=
  match __init__ initial_deposit now (mkAccount 0%float []) with
  | (inl e, _) => inl e
  | (inr _, self) => inr self
  end.



Definition trade_on (sym : string) (tx : Transaction) : Prop :=
  is_trade (type tx) = true ∧ symbol tx = Some sym.

#[global] Instance trade_on_dec sym tx : Decision (trade_on sym tx).
Proof. unfold trade_on. apply _. Defined.

Definition apply_all (st : float * gmap string float)
    (txs : list Transaction) : float * gmap string float :=
  foldl (λ st tx, apply_tx tx st) st txs.

Definition chronological (txs : list Transaction) : Prop :=
  StronglySorted (λ x y, timestamp x ≤ timestamp y) txs.



End Binary64.

(** * Properties *)

(** ** The stable sort *)

Section sorting.
Implicit Types (tx : Transaction) (l : list Transaction).

Lemma insert_by_timestamp_perm tx l : insert_by_timestamp tx l ≡ₚ tx :: l.
Proof.
  induction l as [|y l IH]; simpl; [done|].
  destruct (timestamp tx <=? timestamp y); [done|].
  rewrite IH. apply Permutation_swap.
Qed.

Lemma sorted_by_timestamp_perm l : sorted_by_timestamp l ≡ₚ l.
Proof.
  induction l as [|tx l IH]; simpl; [done|].
  by rewrite insert_by_timestamp_perm, IH.
Qed.

Lemma insert_by_timestamp_chronological tx l :
  chronological l → chronological (insert_by_timestamp tx l).
Proof.
  unfold chronological.
  induction l as [|y l IH]; simpl; intros Hl.
  - repeat constructor.
  - apply StronglySorted_cons in Hl as [Hy Hl].
    destruct (Z.leb_spec (timestamp tx) (timestamp y)) as [Hle|Hlt].
    + apply StronglySorted_cons. split; [|by apply StronglySorted_cons].
      constructor; [done|].
      eapply Forall_impl; [exact Hy|]. simpl. intros; lia.
    + apply StronglySorted_cons. split; [|by apply IH].
      rewrite insert_by_timestamp_perm. constructor; [lia|done].
Qed.

Lemma sorted_by_timestamp_chronological l :
  chronological (sorted_by_timestamp l).
Proof.
  induction l as [|tx l IH]; simpl.
  - constructor.
  - by apply insert_by_timestamp_chronological.
Qed.

(** A log already in chronological order is left as it is. *)
Lemma sorted_by_timestamp_id l :
  chronological l → sorted_by_timestamp l = l.
Proof.
  unfold chronological.
  induction l as [|tx l IH]; simpl; intros Hl; [done|].
  apply StronglySorted_cons in Hl as [Htx Hl]. rewrite IH by done.
  destruct l as [|y l]; simpl; [done|].
  apply Forall_cons in Htx as [Hy _].
  destruct (Z.leb_spec (timestamp tx) (timestamp y)); [done|lia].
Qed.
End sorting.

(** ** The replay loop *)

Section replay.
Implicit Types (tx : Transaction) (l : list Transaction)
  (st : Z * gmap string Z).

Lemma Zsum_app (l1 l2 : list Z) : Zsum (l1 ++ l2) = Zsum l1 + Zsum l2.
Proof. induction l1 as [|x l1 IH]; simpl; [done|]. rewrite IH. lia. Qed.

Lemma Zsum_perm (l1 l2 : list Z) : l1 ≡ₚ l2 → Zsum l1 = Zsum l2.
Proof. induction 1; simpl; lia. Qed.

Lemma recorded_up_to_none T l :
  Forall (λ tx, T < timestamp tx) l → recorded_up_to T l = [].
Proof.
  unfold recorded_up_to. induction 1 as [|tx l Htx _ IH]; [done|].
  rewrite filter_cons_False by lia. done.
Qed.

Lemma recorded_up_to_all T l :
  Forall (λ tx, timestamp tx ≤ T) l → recorded_up_to T l = l.
Proof.
  unfold recorded_up_to. induction 1 as [|tx l Htx _ IH]; [done|].
  rewrite filter_cons_True by done. by rewrite IH.
Qed.

(** On a sorted list the [break] cuts exactly the records dated after
    [up_to]. *)
Lemma replay_loop_chronological up_to l st :
  chronological l →
  replay_loop up_to l st = apply_all st (recorded_up_to up_to l).
Proof.
  unfold chronological. revert st.
  induction l as [|tx l IH]; intros st Hl; simpl; [done|].
  apply StronglySorted_cons in Hl as [Htx Hl].
  destruct (Z.ltb_spec up_to (timestamp tx)) as [Hlt|Hle].
  - rewrite recorded_up_to_none; [done|].
    constructor; [done|].
    eapply Forall_impl; [exact Htx|]. simpl. intros; lia.
  - unfold recorded_up_to. rewrite filter_cons_True by done.
    simpl. by apply IH.
Qed.

Lemma apply_all_cash st l :
  (apply_all st l).1 = st.1 + Zsum (total_amount <$> l).
Proof.
  revert st. induction l as [|tx l IH]; intros st; [simpl; lia|].
  unfold apply_all in *. csimpl. rewrite IH.
  destruct st as [cash held]. simpl. lia.
Qed.

Lemma net_quantity_cons sym tx l :
  net_quantity sym (tx :: l) =
  (if decide (trade_on sym tx) then quantity tx else 0)
  + net_quantity sym l.
Proof.
  unfold net_quantity. rewrite filter_cons.
  destruct (decide (trade_on sym tx)); csimpl; lia.
Qed.

Lemma truthy_Some s sym : truthy s = Some sym → s = Some sym ∧ sym ≠ "".
Proof. destruct s as [[|c s]|]; simpl; naive_solver. Qed.

Lemma apply_all_held st l sym :
  sym ≠ "" →
  default 0 ((apply_all st l).2 !! sym) =
  default 0 (st.2 !! sym) + net_quantity sym l.
Proof.
  intros Hsym. revert st.
  induction l as [|tx l IH]; intros st.
  - unfold net_quantity. simpl. lia.
  - unfold apply_all in *. simpl. rewrite IH, net_quantity_cons.
    destruct st as [cash held]. unfold apply_tx. simpl.
    destruct (decide (trade_on sym tx)) as [[Ht Hs]|Hn].
    + rewrite Ht, Hs. destruct sym as [|c sym]; [done|]. simpl.
      rewrite lookup_insert_eq. simpl. lia.
    + destruct (is_trade (type tx)) eqn:Ht; [|lia].
      destruct (truthy (symbol tx)) as [s|] eqn:Hs; [|lia].
      apply truthy_Some in Hs as [Hs Hne].
      rewrite lookup_insert_ne; [lia|].
      intros ->. apply Hn. by split.
Qed.

Lemma net_quantity_perm sym l1 l2 :
  l1 ≡ₚ l2 → net_quantity sym l1 = net_quantity sym l2.
Proof.
  intros Hp. unfold net_quantity. apply Zsum_perm. by rewrite Hp.
Qed.

Lemma cash_as_of_sum T self :
  cash_as_of T self =
  Zsum (total_amount <$> recorded_up_to T (_transactions self)).
Proof.
  unfold cash_as_of.
  rewrite replay_loop_chronological
    by apply sorted_by_timestamp_chronological.
  rewrite apply_all_cash. simpl. apply Zsum_perm.
  unfold recorded_up_to. by rewrite sorted_by_timestamp_perm.
Qed.

Lemma held_as_of_sum T sym self :
  sym ≠ "" →
  held_as_of T sym self =
  net_quantity sym (recorded_up_to T (_transactions self)).
Proof.
  intros Hsym. unfold held_as_of.
  rewrite replay_loop_chronological
    by apply sorted_by_timestamp_chronological.
  rewrite apply_all_held by done. simpl. rewrite lookup_empty. simpl.
  apply net_quantity_perm.
  unfold recorded_up_to. by rewrite sorted_by_timestamp_perm.
Qed.
End replay.

(** ** What each method does to the object *)

(** Unfolds the plumbing of a method body down to the object it acts
    on. *)
Ltac run_method :=
  cbv [mbind M_bind mret M_ret raise_if raise lift py_get
       _apply_transactions_up_to _latest_timestamp or_latest
       get_transactions get_initial_deposit _record_transaction];
  cbn [fst snd].

Section methods.
Implicit Types (self : Account) (timestamp : option Z).

Lemma apply_transactions_up_to_run up_to self :
  _apply_transactions_up_to up_to self =
  (inr (replay_loop up_to (sorted_by_timestamp (_transactions self))
          (0, ∅)), self).
Proof. reflexivity. Qed.

Lemma deposit_run amount timestamp now self :
  deposit amount timestamp now self =
  if amount <=? 0 then (inl ValueError, self)
  else append_transaction
         (mkTransaction (or_now timestamp now) Deposit None 0 None amount)
         self.
Proof. unfold deposit. destruct (amount <=? 0); reflexivity. Qed.

Lemma withdraw_run amount timestamp now self :
  withdraw amount timestamp now self =
  if amount <=? 0 then (inl ValueError, self)
  else if cash_as_of (or_now timestamp now) self <? amount
  then (inl InsufficientFundsError, self)
  else append_transaction
         (mkTransaction (or_now timestamp now) Withdraw None 0 None
            (- amount))
         self.
Proof.
  unfold withdraw, cash_as_of. destruct (amount <=? 0); [reflexivity|].
  run_method. destruct (replay_loop _ _ _) as [cash held]. simpl.
  destruct (cash <? amount); reflexivity.
Qed.

Lemma buy_run symbol quantity timestamp now self :
  buy symbol quantity timestamp now self =
  if quantity <=? 0 then (inl InvalidQuantityError, self)
  else
    match prices !! symbol with
    | None => (inl InvalidSymbolError, self)
    | Some price =>
        if cash_as_of (or_now timestamp now) self <? price * quantity
        then (inl InsufficientFundsError, self)
        else append_transaction
               (mkTransaction (or_now timestamp now) Buy (Some symbol)
                  quantity (Some price) (- (price * quantity)))
               self
    end.
Proof.
  unfold buy, cash_as_of, get_share_price.
  destruct (quantity <=? 0); [reflexivity|].
  destruct (prices !! symbol) as [price|]; [|reflexivity].
  run_method. destruct (replay_loop _ _ _) as [cash held]. simpl.
  destruct (cash <? price * quantity); reflexivity.
Qed.

Lemma sell_run symbol quantity timestamp now self :
  sell symbol quantity timestamp now self =
  if quantity <=? 0 then (inl InvalidQuantityError, self)
  else (inl AttributeError, self).
Proof.
  unfold sell. destruct (quantity <=? 0); [reflexivity|].
  run_method. destruct (replay_loop _ _ _) as [cash held]. reflexivity.
Qed.

Lemma sell_first_run symbol quantity timestamp now self :
  sell_first symbol quantity timestamp now self =
  if quantity <=? 0 then (inl InvalidQuantityError, self)
  else if held_as_of (or_now timestamp now) symbol self <? quantity
  then (inl InsufficientHoldingsError, self)
  else
    match prices !! symbol with
    | None => (inl InvalidSymbolError, self)
    | Some price =>
        append_transaction
          (mkTransaction (or_now timestamp now) Sell (Some symbol)
             (- quantity) (Some price) (price * quantity))
          self
    end.
Proof.
  unfold sell_first, held_as_of, get_share_price.
  destruct (quantity <=? 0); [reflexivity|].
  run_method. destruct (replay_loop _ _ _) as [cash held]. simpl.
  destruct (default 0 (held !! symbol) <? quantity); [reflexivity|].
  destruct (prices !! symbol); reflexivity.
Qed.

(** A call either leaves the object alone or appends one record, whose
    symbol, if it has one, is priced. *)
Lemma perform_cases c now self :
  (∃ e, perform c now self = (inl e, self)) ∨
  (∃ tx, perform c now self = append_transaction tx self ∧
         ∀ s, symbol tx = Some s → is_Some (prices !! s)).
Proof.
  destruct c as [amount ts|amount ts|sym q ts|sym q ts]; simpl.
  - rewrite deposit_run. destruct (amount <=? 0); [eauto|].
    right. eexists. split; [done|]. by intros s [=].
  - rewrite withdraw_run.
    destruct (amount <=? 0); [eauto|]. destruct (_ <? _); [eauto|].
    right. eexists. split; [done|]. by intros s [=].
  - rewrite buy_run. destruct (q <=? 0); [eauto|].
    destruct (prices !! sym) as [price|] eqn:Hp; [|eauto].
    destruct (_ <? _); [eauto|].
    right. eexists. split; [done|]. intros s [= <-]. by rewrite Hp.
  - rewrite sell_run. destruct (q <=? 0); eauto.
Qed.

Lemma Account_new_run initial_deposit now :
  Account_new initial_deposit now =
  if initial_deposit <=? 0 then inl ValueError
  else inr (mkAccount initial_deposit
              [mkTransaction now Deposit None 0 None initial_deposit]).
Proof.
  unfold Account_new, __init__.
  destruct (initial_deposit <=? 0); reflexivity.
Qed.

Lemma reachable_symbols_priced self :
  reachable self → symbols_priced (_transactions self).
Proof.
  unfold symbols_priced.
  induction 1 as [d now self Hnew|self c now r self' _ IH Hrun].
  - rewrite Account_new_run in Hnew.
    destruct (d <=? 0); [done|]. injection Hnew as <-. simpl.
    constructor; [|done]. by intros s [=].
  - destruct (perform_cases c now self) as [[e He]|[tx [Htx Hsym]]].
    + rewrite He in Hrun. by injection Hrun as _ <-.
    + rewrite Htx in Hrun. injection Hrun as _ <-. simpl.
      apply Forall_app. split; [done|]. by constructor.
Qed.
End methods.

(** ** The replay behind the balance queries *)

Section holdings.
Implicit Types (self : Account) (l : list Transaction)
  (st : Z * gmap string Z).

(** The replay never files anything under the empty symbol. *)
Lemma apply_all_empty_symbol st l :
  (apply_all st l).2 !! "" = st.2 !! "".
Proof.
  revert st. induction l as [|tx l IH]; intros st; [done|].
  unfold apply_all in *. simpl. rewrite IH.
  destruct st as [cash held]. unfold apply_tx. simpl.
  destruct (is_trade (type tx)); [|done].
  destruct (truthy (symbol tx)) as [s|] eqn:Hs; [|done].
  apply truthy_Some in Hs as [_ Hne]. by rewrite lookup_insert_ne.
Qed.

Lemma symbols_priced_no_empty l :
  symbols_priced l → net_quantity "" l = 0.
Proof.
  unfold symbols_priced. induction 1 as [|tx l Htx _ IH]; [done|].
  rewrite net_quantity_cons, IH.
  rewrite decide_False; [done|].
  intros [_ Hs]. by destruct (Htx _ Hs) as [p [=]].
Qed.

Lemma symbols_priced_up_to T l :
  symbols_priced l → symbols_priced (recorded_up_to T l).
Proof.
  unfold symbols_priced, recorded_up_to. rewrite !Forall_forall.
  intros Hl tx Htx. apply list_elem_of_filter in Htx as [_ Htx].
  by apply Hl.
Qed.

Lemma held_as_of_priced T sym self :
  symbols_priced (_transactions self) →
  held_as_of T sym self =
  net_quantity sym (recorded_up_to T (_transactions self)).
Proof.
  intros Hp. destruct (decide (sym = "")) as [->|Hne].
  - rewrite symbols_priced_no_empty by by apply symbols_priced_up_to.
    unfold held_as_of.
    rewrite replay_loop_chronological
      by apply sorted_by_timestamp_chronological.
    by rewrite apply_all_empty_symbol.
  - by apply held_as_of_sum.
Qed.

(** The dictionary comprehension of [holdings], read at one key. *)
Lemma nonzero_lookup (m : gmap string Z) sym :
  filter (λ kv : string * Z, kv.2 ≠ 0) m !! sym =
  if decide (default 0 (m !! sym) = 0) then None
  else Some (default 0 (m !! sym)).
Proof.
  rewrite map_lookup_filter.
  destruct (m !! sym) as [q|]; simpl; [|done].
  destruct (decide (q = 0)) as [->|Hq].
  - by rewrite option_guard_False by (simpl; lia).
  - by rewrite option_guard_True.
Qed.
End holdings.

(** ** The history query *)

Lemma history_loop_filter (since until : option Z)
    (txs result : list Transaction) :
  history_loop (Aware <$> since) (Aware <$> until) txs result =
  inr (result ++ filter (λ tx, in_range since until (timestamp tx)) txs).
Proof.
  revert result. induction txs as [|tx txs IH]; intros result.
  - simpl. by rewrite app_nil_r.
  - rewrite filter_cons. simpl.
    destruct (decide (in_range since until (timestamp tx))) as [[Hs Hu]|Hn].
    + destruct since as [s|], until as [u|]; simpl in *;
        repeat match goal with
               | |- context [?a <? ?b] => destruct (Z.ltb_spec a b); try lia
               end; rewrite IH; by rewrite <- app_assoc.
    + unfold in_range in Hn.
      destruct since as [s|], until as [u|]; simpl in *;
        repeat match goal with
               | |- context [?a <? ?b] => destruct (Z.ltb_spec a b); try lia
               end; try (by rewrite IH); exfalso; apply Hn; split;
        (done || lia).
Qed.

(** With bounds that carry a timezone, [transaction_history] returns
    exactly the recorded transactions whose timestamp lies between the
    bounds, both ends included and an unset bound being no bound, in the
    order in which they were recorded. *)
Lemma transaction_history_aware (self : Account)
    (since until : option Z) :
  transaction_history (Aware <$> since) (Aware <$> until) self =
  (inr (filter (λ tx, in_range since until (timestamp tx))
          (_transactions self)), self).
Proof.
  unfold transaction_history. run_method.
  by rewrite history_loop_filter.
Qed.

(** With a [since] that carries no timezone, the first comparison of the
    loop raises: only on an empty log does the query return. *)
Lemma transaction_history_naive_since (self : Account) (w : Z)
    (until : option datetime) :
  _transactions self ≠ [] →
  transaction_history (Some (Naive w)) until self = (inl TypeError, self).
Proof.
  unfold transaction_history. run_method.
  by destruct (_transactions self).
Qed.

(** With an [until] that carries no timezone, the query raises as soon as
    a record passes the [since] test. *)
Lemma transaction_history_naive_until (self : Account)
    (since : option Z) (w : Z) :
  Exists (λ tx, in_range since None (timestamp tx)) (_transactions self) →
  transaction_history (Aware <$> since) (Some (Naive w)) self =
  (inl TypeError, self).
Proof.
  unfold transaction_history. run_method.
  assert (∀ txs result,
    Exists (λ tx, in_range since None (timestamp tx)) txs →
    history_loop (Aware <$> since) (Some (Naive w)) txs result
    = inl TypeError) as Hloop.
  { induction txs as [|tx txs IH]; intros result Hex.
    - by apply Exists_nil in Hex.
    - simpl. apply Exists_cons in Hex.
      destruct since as [s|]; simpl; [|done].
      destruct (Z.ltb_spec (timestamp tx) s) as [Hlt|Hge]; [|done].
      destruct Hex as [[Hin _]|Hex]; [simpl in Hin; lia|by apply IH]. }
  intros Hex. by rewrite Hloop.
Qed.

(** C9, evaluated on the code: on an account just opened, a [since] that
    carries no timezone makes [transaction_history] raise [TypeError],
    where the same instant with a timezone returns the one record of the
    log. *)
Theorem transaction_history_naive_bound :
  ∃ self,
    Account_new 100 0 = inr self ∧
    transaction_history (Some (Naive 0)) None self = (inl TypeError, self) ∧
    transaction_history None (Some (Naive 0)) self = (inl TypeError, self) ∧
    transaction_history (Some (Aware 0)) (Some (Aware 0)) self =
      (inr [mkTransaction 0 Deposit None 0 None 100], self).
Proof.
  exists (mkAccount 100 [mkTransaction 0 Deposit None 0 None 100]).
  split_and!; reflexivity.
Qed.

(** ** Refused calls *)

(** C1: for every account and every positive quantity, the [sell] the
    class keeps raises, with nothing appended to the log: it takes the
    cash component of the replay for the holdings and calls [.get] on a
    number. *)
Theorem sell_always_raises (self : Account) (symbol : string)
    (quantity : Z) (timestamp : option Z) (now : Z) :
  0 < quantity →
  sell symbol quantity timestamp now self = (inl AttributeError, self).
Proof.
  intros Hq. rewrite sell_run.
  destruct (Z.leb_spec quantity 0); [lia|done].
Qed.

Lemma sell_always_raises_witness :
  sell "AAPL" 1 None 2
    (mkAccount 1000
       [mkTransaction 0 Deposit None 0 None 1000;
        mkTransaction 1 Buy (Some "AAPL") 2 (Some 150) (-300)]) =
  (inl AttributeError,
   mkAccount 1000
     [mkTransaction 0 Deposit None 0 None 1000;
      mkTransaction 1 Buy (Some "AAPL") 2 (Some 150) (-300)]).
Proof. apply sell_always_raises. lia. Defined.

(** C8: for every symbol that is not in the price table and every
    positive quantity, [buy] raises [InvalidSymbolError] and appends no
    transaction. *)
Theorem buy_unknown_symbol (self : Account) (symbol : string)
    (quantity : Z) (timestamp : option Z) (now : Z) :
  prices !! symbol = None →
  0 < quantity →
  buy symbol quantity timestamp now self = (inl InvalidSymbolError, self).
Proof.
  intros Hsym Hq. rewrite buy_run, Hsym.
  destruct (Z.leb_spec quantity 0); [lia|done].
Qed.

Lemma buy_unknown_symbol_witness :
  buy "MSFT" 1 None 5
    (mkAccount 1000 [mkTransaction 0 Deposit None 0 None 1000]) =
  (inl InvalidSymbolError,
   mkAccount 1000 [mkTransaction 0 Deposit None 0 None 1000]).
Proof. apply buy_unknown_symbol; [reflexivity|lia]. Defined.

(** C7: whichever of [deposit], [withdraw], [buy] and [sell] is called and
    whatever its arguments, a call that raises leaves the account, and so
    its transaction log, exactly as it was before the call. *)
Theorem failed_call_leaves_log (c : call) (now : Z) (self self' : Account)
    (e : exn) :
  perform c now self = (inl e, self') →
  self' = self ∧ _transactions self' = _transactions self.
Proof.
  intros Hrun.
  destruct (perform_cases c now self) as [[e' He]|[tx [Htx _]]].
  - rewrite He in Hrun. by injection Hrun as _ <-.
  - rewrite Htx in Hrun. discriminate.
Qed.

Lemma failed_call_leaves_log_witness :
  let self := mkAccount 100 [mkTransaction 0 Deposit None 0 None 100] in
  perform (Call_withdraw 1000 None) 1 self =
    (inl InsufficientFundsError, self) ∧
  (self = self ∧ _transactions self = _transactions self).
Proof.
  split; [reflexivity|].
  apply (failed_call_leaves_log (Call_withdraw 1000 None) 1 _ _
           InsufficientFundsError).
  reflexivity.
Defined.

(** ** Queries read and do not write *)

Section queries.
Implicit Types (self : Account) (as_of : option Z).

Lemma read_only_repeatable {A} (q : M A) :
  (∀ s, (q s).2 = s) → repeatable q.
Proof. intros Hq s. split; [apply Hq|]. by rewrite Hq. Qed.

Lemma or_latest_read_only as_of self : (or_latest as_of self).2 = self.
Proof.
  destruct as_of; [done|]. run_method.
  by destruct (max_timestamp _).
Qed.

(** A computation that reads, followed by one that reads, reads. *)
Lemma bind_read_only {A B} (m : M A) (k : A → M B) :
  (∀ s, (m s).2 = s) →
  (∀ x s, (k x s).2 = s) →
  ∀ s, ((m ≫= k) s).2 = s.
Proof.
  intros Hm Hk s. unfold mbind, M_bind.
  specialize (Hm s). destruct (m s) as [[e|x] s']; simpl in *.
  - done.
  - subst s'. apply Hk.
Qed.

Lemma cash_balance_read_only as_of self :
  (cash_balance as_of self).2 = self.
Proof.
  unfold cash_balance.
  apply bind_read_only; [apply or_latest_read_only|].
  intros ts self0. apply bind_read_only; [done|]. by intros [cash held].
Qed.

Lemma holdings_read_only as_of self : (holdings as_of self).2 = self.
Proof.
  unfold holdings.
  apply bind_read_only; [apply or_latest_read_only|].
  intros ts self0. apply bind_read_only; [done|]. by intros [cash held].
Qed.

Lemma portfolio_value_read_only as_of self :
  (portfolio_value as_of self).2 = self.
Proof.
  unfold portfolio_value.
  apply bind_read_only; [apply or_latest_read_only|].
  intros ts self0. apply bind_read_only; [done|]. intros [cash held] self1.
  apply bind_read_only; [|done].
  intros self2. by destruct (market_value_loop _ _).
Qed.

Lemma profit_loss_read_only as_of self :
  (profit_loss as_of self).2 = self.
Proof.
  unfold profit_loss.
  apply bind_read_only; [apply portfolio_value_read_only|].
  intros value self0. by apply bind_read_only.
Qed.

Lemma transaction_history_read_only since until self :
  (transaction_history since until self).2 = self.
Proof.
  unfold transaction_history. run_method.
  by destruct (history_loop _ _ _ _).
Qed.
End queries.

(** C10: for every account and every argument, each of the queries (cash
    balance, holdings, portfolio value, profit and loss, transaction
    history) leaves the account, and so its log, as it found it, and
    called a second time with the same arguments it gives the same
    result. *)
Theorem queries_repeatable (as_of : option Z)
    (since until : option datetime) :
  repeatable (cash_balance as_of) ∧
  repeatable (holdings as_of) ∧
  repeatable (portfolio_value as_of) ∧
  repeatable (profit_loss as_of) ∧
  repeatable (transaction_history since until).
Proof.
  split_and!; apply read_only_repeatable; intros s.
  - apply cash_balance_read_only.
  - apply holdings_read_only.
  - apply portfolio_value_read_only.
  - apply profit_loss_read_only.
  - apply transaction_history_read_only.
Qed.

(** ** The buy-then-sell scenario *)

(** C2, evaluated on the code: on an account opened with 1000, buying 2
    shares of AAPL (priced 150) leaves cash 700 and holdings AAPL: 2; the
    sale of 1 share that follows raises [AttributeError] and changes
    nothing, where the first definition of [sell] in the class would have
    left cash 850 and holdings AAPL: 1. *)
Theorem scenario_buy_then_sell :
  ∃ a0 a1 a2,
    Account_new 1000 0 = inr a0 ∧
    buy "AAPL" 2 None 1 a0 = (inr tt, a1) ∧
    cash_balance None a1 = (inr 700, a1) ∧
    holdings None a1 = (inr {["AAPL" := 2]}, a1) ∧
    sell "AAPL" 1 None 2 a1 = (inl AttributeError, a1) ∧
    sell_first "AAPL" 1 None 2 a1 = (inr tt, a2) ∧
    cash_balance None a2 = (inr 850, a2) ∧
    holdings None a2 = (inr {["AAPL" := 1]}, a2).
Proof.
  pose (d := mkTransaction 0 Deposit None 0 None 1000).
  pose (b := mkTransaction 1 Buy (Some "AAPL") 2 (Some 150) (-300)).
  pose (s := mkTransaction 2 Sell (Some "AAPL") (-1) (Some 150) 150).
  exists (mkAccount 1000 [d]), (mkAccount 1000 [d; b]),
    (mkAccount 1000 [d; b; s]).
  split_and!; by vm_compute.
Qed.

(** ** Overdraft *)

Section overdraft.
Implicit Types (self : Account) (tx : Transaction).

Lemma cash_as_of_append T tx self :
  cash_as_of T (append_transaction tx self).2 =
  cash_as_of T self
  + (if decide (timestamp tx ≤ T) then total_amount tx else 0).
Proof.
  rewrite !cash_as_of_sum. simpl. unfold recorded_up_to.
  rewrite filter_app, fmap_app, Zsum_app. f_equal.
  rewrite filter_cons, filter_nil.
  destruct (decide (timestamp tx ≤ T)); simpl; lia.
Qed.








End overdraft.




(** ** The two definitions of the mutators *)

Section definitions.
Implicit Types (self : Account) (timestamp : option Z).

Lemma withdraw_first_run amount timestamp now self :
  withdraw_first amount timestamp now self =
  if amount <=? 0 then (inl ValueError, self)
  else
    match from_option Some (max_timestamp (_transactions self)) timestamp
    with
    | None => (inl ValueError, self)
    | Some up_to =>
        if cash_as_of up_to self <? amount
        then (inl InsufficientFundsError, self)
        else append_transaction
               (mkTransaction (or_now timestamp now) Withdraw None 0 None
                  (- amount))
               self
    end.
Proof.
  unfold withdraw_first, cash_as_of.
  destruct (amount <=? 0); [reflexivity|].
  destruct timestamp as [t|]; run_method; simpl.
  - destruct (replay_loop _ _ _) as [cash held]. simpl.
    destruct (cash <? amount); reflexivity.
  - destruct (max_timestamp _) as [m|]; [|reflexivity].
    destruct (replay_loop _ _ _) as [cash held]. simpl.
    destruct (cash <? amount); reflexivity.
Qed.

Lemma buy_first_run symbol quantity timestamp now self :
  buy_first symbol quantity timestamp now self =
  if quantity <=? 0 then (inl InvalidQuantityError, self)
  else
    match prices !! symbol with
    | None => (inl InvalidSymbolError, self)
    | Some price =>
        match from_option Some (max_timestamp (_transactions self))
                timestamp
        with
        | None => (inl ValueError, self)
        | Some up_to =>
            if cash_as_of up_to self <? price * quantity
            then (inl InsufficientFundsError, self)
            else append_transaction
                   (mkTransaction (or_now timestamp now) Buy (Some symbol)
                      quantity (Some price) (- (price * quantity)))
                   self
        end
    end.
Proof.
  unfold buy_first, cash_as_of, get_share_price.
  destruct (quantity <=? 0); [reflexivity|].
  destruct (prices !! symbol) as [price|]; [|reflexivity].
  destruct timestamp as [t|]; run_method; simpl.
  - destruct (replay_loop _ _ _) as [cash held]. simpl.
    destruct (cash <? price * quantity); reflexivity.
  - destruct (max_timestamp _) as [m|]; [|reflexivity].
    destruct (replay_loop _ _ _) as [cash held]. simpl.
    destruct (cash <? price * quantity); reflexivity.
Qed.

Lemma max_timestamp_bound (l : list Transaction) m :
  max_timestamp l = Some m → Forall (λ tx, timestamp tx ≤ m) l.
Proof.
  revert m. induction l as [|tx l IH]; intros m Hm; [done|].
  simpl in Hm. destruct (max_timestamp l) as [m'|] eqn:Hl.
  - injection Hm as <-. constructor; [lia|].
    eapply Forall_impl; [by apply IH|]. simpl. intros; lia.
  - injection Hm as <-. destruct l as [|tx' l']; [by constructor|].
    simpl in Hl. by destruct (max_timestamp l').
Qed.

(** Once every record is dated [T] or earlier, the replay no longer
    depends on [T]. *)
Lemma cash_as_of_covered T self :
  Forall (λ tx, timestamp tx ≤ T) (_transactions self) →
  cash_as_of T self = Zsum (total_amount <$> _transactions self).
Proof. intros Hall. by rewrite cash_as_of_sum, recorded_up_to_all. Qed.

(** With a clock that covers the log, both definitions replay up to the
    same balance. *)
Lemma clock_covers_log_cash timestamp now self :
  clock_covers_log timestamp now self →
  ∃ up_to,
    from_option Some (max_timestamp (_transactions self)) timestamp
      = Some up_to ∧
    cash_as_of up_to self = cash_as_of (or_now timestamp now) self.
Proof.
  unfold clock_covers_log. destruct timestamp as [t|]; simpl.
  - intros _. by exists t.
  - destruct (max_timestamp _) as [m|] eqn:Hm; [|done]. intros Hle.
    exists m. split; [done|].
    apply max_timestamp_bound in Hm.
    rewrite !cash_as_of_covered; [done|..|done].
    eapply Forall_impl; [exact Hm|]. simpl. intros; lia.
Qed.
End definitions.

(** C6, the claim refuted.  On an account opened with 1000 at instant 0
    that holds a deposit of 500 dated 100, a withdrawal of 1200 with no
    timestamp at clock 5 is accepted by the first definition of [withdraw]
    (it replays up to the latest record, 1500) and refused by the later one
    (it replays up to the clock, 1000); the same for a purchase of 8 AAPL.
    On an account that holds 2 AAPL, selling 1 is accepted by the first
    definition of [sell] and raises [AttributeError] in the later one. *)
Lemma later_definitions_differ :
  let a :=
    mkAccount 1000
      [mkTransaction 0 Deposit None 0 None 1000;
       mkTransaction 100 Deposit None 0 None 500] in
  let b :=
    mkAccount 1000
      [mkTransaction 0 Deposit None 0 None 1000;
       mkTransaction 1 Buy (Some "AAPL") 2 (Some 150) (-300)] in
  withdraw_first 1200 None 5 a ≠ withdraw 1200 None 5 a ∧
  buy_first "AAPL" 8 None 5 a ≠ buy "AAPL" 8 None 5 a ∧
  sell_first "AAPL" 1 None 2 b ≠ sell "AAPL" 1 None 2 b.
Proof. split_and!; vm_compute; discriminate. Qed.

(** C6 as amended: for every account and every argument list whose
    timestamp is given, or is omitted while the log is not empty and holds
    no record dated after the clock, the earlier and the later definition
    of [withdraw], and of [buy], raise the same error or append the same
    transaction. *)
Theorem first_definitions_agree (self : Account) (amount : Z)
    (symbol : string) (quantity : Z) (timestamp : option Z) (now : Z) :
  clock_covers_log timestamp now self →
  withdraw_first amount timestamp now self =
    withdraw amount timestamp now self ∧
  buy_first symbol quantity timestamp now self =
    buy symbol quantity timestamp now self.
Proof.
  intros Hclock.
  destruct (clock_covers_log_cash _ _ _ Hclock) as [up_to [Hup Hcash]].
  rewrite withdraw_first_run, withdraw_run, buy_first_run, buy_run.
  rewrite Hup, Hcash. done.
Qed.

Lemma first_definitions_agree_witness :
  let a := mkAccount 1000 [mkTransaction 0 Deposit None 0 None 1000] in
  withdraw_first 300 None 5 a = withdraw 300 None 5 a ∧
  buy_first "AAPL" 2 None 5 a = buy "AAPL" 2 None 5 a.
Proof.
  apply (first_definitions_agree
           (mkAccount 1000 [mkTransaction 0 Deposit None 0 None 1000])
           300 "AAPL" 2 None 5).
  simpl. lia.
Defined.

(** * Further properties of the class *)

(** ** Valuing holdings at the price table *)

Section valuation.
Implicit Types (table held : gmap string Z) (f g : string → Z).

Lemma Zsum_fmap_perm {A} (h : A → Z) (l1 l2 : list A) :
  l1 ≡ₚ l2 → Zsum (h <$> l1) = Zsum (h <$> l2).
Proof. intros Hp. apply Zsum_perm. by rewrite Hp. Qed.

Lemma table_value_empty f : table_value ∅ f = 0.
Proof. unfold table_value. by rewrite map_to_list_empty. Qed.

Lemma table_value_insert table s p f :
  table !! s = None →
  table_value (<[s := p]> table) f = f s * p + table_value table f.
Proof.
  intros Hs. unfold table_value.
  by rewrite (Zsum_fmap_perm _ _ _ (map_to_list_insert table s p Hs)).
Qed.

(** Changing the shares of one symbol changes the value by the change
    times the price of the symbol, nothing if the table has no price for
    it. *)
Lemma table_value_update table f g s :
  (∀ k, k ≠ s → g k = f k) →
  table_value table g =
  table_value table f + (g s - f s) * default 0 (table !! s).
Proof.
  intros Hother. induction table as [|k p table Hk IH] using map_ind.
  - rewrite !table_value_empty, lookup_empty. simpl. lia.
  - rewrite !table_value_insert by done. rewrite IH.
    destruct (decide (k = s)) as [->|Hne].
    + rewrite lookup_insert_eq, Hk. simpl. lia.
    + rewrite lookup_insert_ne by done. rewrite (Hother k Hne). lia.
Qed.

Lemma table_value_ext table f g :
  (∀ k, g k = f k) → table_value table g = table_value table f.
Proof.
  intros Hfg. rewrite (table_value_update table f g "") by auto.
  rewrite Hfg. lia.
Qed.

Lemma table_value_zero table : table_value table (λ _, 0) = 0.
Proof.
  induction table as [|k p table Hk IH] using map_ind.
  - apply table_value_empty.
  - rewrite table_value_insert by done. lia.
Qed.

(** The loop of [portfolio_value] on items whose symbols are priced,
    those with no shares apart. *)
Lemma market_value_loop_priced (items : list (string * Z)) acc :
  Forall (λ sq, sq.2 = 0 ∨ is_Some (prices !! sq.1)) items →
  market_value_loop items acc =
  inr (acc + Zsum ((λ sq, sq.2 * default 0 (prices !! sq.1)) <$> items)).
Proof.
  intros Hitems. revert acc.
  induction Hitems as [|[s q] items Hsq _ IH]; intros acc; csimpl.
  - f_equal; lia.
  - destruct (Z.eqb_spec q 0) as [->|Hq].
    + rewrite IH. f_equal; lia.
    + unfold get_share_price. simpl in Hsq.
      destruct Hsq as [?|[p Hp]]; [done|]. rewrite Hp. simpl.
      rewrite IH. f_equal; lia.
Qed.

(** Summed over the holdings or over the table, the value is the same. *)
Lemma holdings_value_table_value held :
  Zsum ((λ sq : string * Z, sq.2 * default 0 (prices !! sq.1))
          <$> map_to_list held) =
  table_value prices (λ s, default 0 (held !! s)).
Proof.
  induction held as [|k q held Hk IH] using map_ind.
  - rewrite map_to_list_empty. simpl.
    rewrite <- (table_value_zero prices). apply table_value_ext.
    intros s. by rewrite lookup_empty.
  - rewrite (Zsum_fmap_perm _ _ _ (map_to_list_insert held k q Hk)).
    csimpl. rewrite IH.
    rewrite (table_value_update prices (λ s, default 0 (held !! s))
               (λ s, default 0 (<[k:=q]> held !! s)) k).
    + rewrite lookup_insert_eq, Hk. simpl. lia.
    + intros s Hs. by rewrite lookup_insert_ne.
Qed.
End valuation.

(** ** The queries in terms of the log *)

Section views.
Implicit Types (self : Account) (tx : Transaction)
  (l : list Transaction) (st : Z * gmap string Z).

Lemma cash_balance_run T self :
  cash_balance (Some T) self = (inr (cash_as_of T self), self).
Proof.
  unfold cash_balance, cash_as_of. run_method.
  by destruct (replay_loop _ _ _).
Qed.

Lemma holdings_run T self :
  ∃ h : gmap string Z,
    holdings (Some T) self = (inr h, self) ∧
    ∀ sym, default 0 (h !! sym) = held_as_of T sym self.
Proof.
  exists (filter (λ kv : string * Z, kv.2 ≠ 0)
            (replay_loop T (sorted_by_timestamp (_transactions self))
               (0, ∅)).2).
  split.
  - unfold holdings. run_method. by destruct (replay_loop _ _ _).
  - intros sym. rewrite nonzero_lookup. unfold held_as_of.
    by destruct (decide _) as [->|].
Qed.




(** The replay files shares only under symbols that records name. *)
Lemma apply_all_keys_priced st l :
  symbols_priced l →
  (∀ s q, st.2 !! s = Some q → is_Some (prices !! s)) →
  ∀ s q, (apply_all st l).2 !! s = Some q → is_Some (prices !! s).
Proof.
  unfold symbols_priced. intros Hl. revert st.
  induction Hl as [|tx l Htx _ IH]; intros st Hst; [done|].
  unfold apply_all in *. simpl. apply IH.
  destruct st as [cash held]. unfold apply_tx. simpl in *.
  destruct (is_trade (type tx)); [|done].
  destruct (truthy (symbol tx)) as [sym|] eqn:Hsym; [|done].
  apply truthy_Some in Hsym as [Hsym _].
  intros s q. destruct (decide (sym = s)) as [<-|Hne].
  - intros _. by apply Htx.
  - rewrite lookup_insert_ne by done. apply Hst.
Qed.

Lemma portfolio_value_run T self :
  symbols_priced (_transactions self) →
  portfolio_value (Some T) self =
  (inr (cash_as_of T self
        + table_value prices (λ s, held_as_of T s self)), self).
Proof.
  intros Hp. unfold portfolio_value, cash_as_of, held_as_of. run_method.
  assert (∀ s q,
    (replay_loop T (sorted_by_timestamp (_transactions self)) (0, ∅)).2
      !! s = Some q → is_Some (prices !! s)) as Hkeys.
  { rewrite replay_loop_chronological
      by apply sorted_by_timestamp_chronological.
    apply apply_all_keys_priced; [|done].
    apply symbols_priced_up_to. unfold symbols_priced.
    by rewrite sorted_by_timestamp_perm. }
  destruct (replay_loop _ _ _) as [cash held]. simpl in *.
  rewrite market_value_loop_priced.
  - by rewrite holdings_value_table_value.
  - apply Forall_forall. intros [s q] Hin. right. simpl.
    apply elem_of_map_to_list in Hin. by eapply Hkeys.
Qed.

Lemma profit_loss_run T self :
  symbols_priced (_transactions self) →
  profit_loss (Some T) self =
  (inr (cash_as_of T self
        + table_value prices (λ s, held_as_of T s self)
        - _initial_deposit self), self).
Proof.
  intros Hp. unfold profit_loss. unfold mbind at 1, M_bind at 1.
  by rewrite portfolio_value_run.
Qed.
End views.

(** ** What an accepted call records *)

Section recording.
Implicit Types (self : Account) (tx : Transaction).

Lemma prices_positive s p : prices !! s = Some p → 0 < p.
Proof.
  unfold prices. intros Hp.
  repeat (apply lookup_insert_Some in Hp as [[_ <-]|[_ Hp]]; [lia|]).
  by rewrite lookup_empty in Hp.
Qed.



(** The record an accepted call appends. *)
Lemma perform_accepted c now self self' :
  perform c now self = (inr tt, self') →
  ∃ tx,
    self' = (append_transaction tx self).2 ∧
    timestamp tx = or_now (call_timestamp c) now ∧
    total_amount tx = cash_effect c ∧
    type tx = call_type c ∧
    (∀ sym, (if decide (trade_on sym tx) then quantity tx else 0)
            = share_effect c sym) ∧
    well_formed tx.
Proof.
  intros Hrun.
  destruct c as [amount ts|amount ts|sym q ts|sym q ts]; simpl in Hrun.
  - rewrite deposit_run in Hrun.
    destruct (Z.leb_spec amount 0); [done|]. injection Hrun as <-.
    eexists. split; [done|]. split_and!; try done.
  - rewrite withdraw_run in Hrun.
    destruct (Z.leb_spec amount 0); [done|].
    destruct (_ <? _); [done|]. injection Hrun as <-.
    eexists. split; [done|]. split_and!; try done.
    unfold well_formed. simpl. split_and!; (done || lia).
  - rewrite buy_run in Hrun.
    destruct (Z.leb_spec q 0); [done|].
    destruct (prices !! sym) as [price|] eqn:Hprice; [|done].
    destruct (_ <? _); [done|]. injection Hrun as <-.
    eexists. split; [done|]. split_and!; try done.
    + simpl. by rewrite Hprice.
    + intros sym'. simpl. unfold trade_on. simpl.
      destruct (decide (sym = sym')) as [->|Hne].
      * by rewrite decide_True.
      * rewrite decide_False; [done|]. intros [_ [=]]. done.
    + unfold well_formed. simpl. exists sym, price. split_and!; done.
  - rewrite sell_run in Hrun. by destruct (q <=? 0).
Qed.
End recording.

(** X1: every record in the log of an account built by calls of the
    mutators has the shape of its kind: a deposit has no symbol, no
    quantity, no price and a positive amount; a withdrawal the same with a
    negative amount; a purchase names a symbol of the price table, carries
    its price and a positive quantity, and its amount is minus price times
    quantity. *)
Theorem recorded_transactions_well_formed (self : Account) :
  reachable self → Forall well_formed (_transactions self).
Proof.
  induction 1 as [d now self Hnew|self c now r self' _ IH Hrun].
  - rewrite Account_new_run in Hnew.
    destruct (Z.leb_spec d 0); [done|]. injection Hnew as <-. simpl.
    constructor; [|done]. unfold well_formed. simpl. split_and!; done.
  - destruct r as [e|[]].
    + destruct (perform_cases c now self) as [[e' He]|[tx [Htx _]]].
      * rewrite He in Hrun. by injection Hrun as _ <-.
      * rewrite Htx in Hrun. discriminate.
    + destruct (perform_accepted _ _ _ _ Hrun) as (tx & -> & _ & _ & _ & _ & Hwf).
      simpl. apply Forall_app. split; [done|]. by constructor.
Qed.

Lemma recorded_transactions_well_formed_witness :
  Forall well_formed
    [mkTransaction 0 Deposit None 0 None 1000;
     mkTransaction 1 Buy (Some "AAPL") 2 (Some 150) (-300)].
Proof.
  apply (recorded_transactions_well_formed
           (mkAccount 1000
              [mkTransaction 0 Deposit None 0 None 1000;
               mkTransaction 1 Buy (Some "AAPL") 2 (Some 150) (-300)])).
  apply (reachable_call
           (mkAccount 1000 [mkTransaction 0 Deposit None 0 None 1000])
           (Call_buy "AAPL" 2 None) 1 (inr tt)); [|reflexivity].
  by apply (reachable_new 1000 0).
Defined.

(** X2: an accepted call of a mutator appends exactly one record to the
    log, dated at the timestamp of the call or, without one, at the clock,
    and leaves every earlier record and the profit baseline as they
    were. *)
Theorem accepted_call_appends_one_record (c : call) (now : Z)
    (self self' : Account) :
  perform c now self = (inr tt, self') →
  ∃ tx,
    _transactions self' = _transactions self ++ [tx] ∧
    timestamp tx = or_now (call_timestamp c) now ∧
    _initial_deposit self' = _initial_deposit self.
Proof.
  intros Hrun.
  destruct (perform_accepted _ _ _ _ Hrun) as (tx & -> & Hts & _).
  by exists tx.
Qed.

Lemma accepted_call_appends_one_record_witness :
  ∃ tx,
    [mkTransaction 0 Deposit None 0 None 1000;
     mkTransaction 7 Withdraw None 0 None (-300)] =
    [mkTransaction 0 Deposit None 0 None 1000] ++ [tx] ∧
    timestamp tx = 7 ∧ 1000 = 1000.
Proof.
  apply (accepted_call_appends_one_record (Call_withdraw 300 (Some 7)) 9
           (mkAccount 1000 [mkTransaction 0 Deposit None 0 None 1000])
           (mkAccount 1000
              [mkTransaction 0 Deposit None 0 None 1000;
               mkTransaction 7 Withdraw None 0 None (-300)])).
  reflexivity.
Defined.

(** X3: whatever a sequence of calls returns, the log it leaves extends
    the log it found by at most one record per call: records are never
    removed or altered, and the records of the calls accepted before one
    that raises stay in the log. *)
Theorem log_only_grows (cs : list (call * Z)) (self self' : Account)
    (r : exn + unit) :
  perform_all cs self = (r, self') →
  _transactions self `prefix_of` _transactions self' ∧
  (length (_transactions self') ≤ length (_transactions self) + length cs)%nat.
Proof.
  revert self. induction cs as [|[c now] cs IH]; intros self Hrun.
  - injection Hrun as _ <-. split; [done|lia].
  - simpl in Hrun. unfold mbind, M_bind in Hrun.
    destruct (perform_cases c now self) as [[e He]|[tx [Htx _]]].
    + rewrite He in Hrun. injection Hrun as _ <-. split; [done|simpl; lia].
    + rewrite Htx in Hrun. simpl in Hrun.
      apply IH in Hrun as [Hpre Hlen]. simpl in *.
      rewrite length_app in Hlen. simpl in Hlen. split; [|lia].
      etrans; [|exact Hpre]. by apply prefix_app_r.
Qed.

Lemma log_only_grows_witness :
  [mkTransaction 0 Deposit None 0 None 1000]
    `prefix_of` [mkTransaction 0 Deposit None 0 None 1000;
                 mkTransaction 3 Deposit None 0 None 50] ∧
  (2 ≤ 1 + 2)%nat.
Proof.
  apply (log_only_grows
           [(Call_deposit 50 None, 3); (Call_withdraw 5000 None, 4)]
           (mkAccount 1000 [mkTransaction 0 Deposit None 0 None 1000])
           (mkAccount 1000
              [mkTransaction 0 Deposit None 0 None 1000;
               mkTransaction 3 Deposit None 0 None 50])
           (inl InsufficientFundsError)).
  reflexivity.
Defined.

(** ** What an accepted call does to the queries *)

Section moves.
Implicit Types (self : Account) (tx : Transaction).


End moves.





(** ** When a call is accepted *)

(** Names the account an accepted call leaves as the old one with the
    record appended. *)
Ltac appended_in H :=
  match type of H with
  | append_transaction ?tx ?self = (_, ?self') =>
      assert (self' = (append_transaction tx self).2) as ->
        by (by injection H as <-)
  end.

(** X9: just after a withdrawal or a purchase is accepted, whatever its
    date, the cash balance as of that date is not negative. *)
Theorem accepted_debit_leaves_cash (c : call) (now : Z)
    (self self' : Account) :
  perform c now self = (inr tt, self') →
  call_type c = Withdraw ∨ call_type c = Buy →
  ∃ cash,
    cash_balance (Some (or_now (call_timestamp c) now)) self' =
      (inr cash, self') ∧
    0 ≤ cash.
Proof.
  intros Hrun Hkind. eexists. rewrite cash_balance_run. split; [done|].
  destruct c as [amount ts|amount ts|sym q ts|sym q ts]; simpl in *.
  - by destruct Hkind.
  - rewrite withdraw_run in Hrun.
    destruct (Z.leb_spec amount 0); [done|].
    destruct (Z.ltb_spec (cash_as_of (or_now ts now) self) amount); [done|].
    appended_in Hrun. rewrite cash_as_of_append. simpl.
    rewrite decide_True by done. lia.
  - rewrite buy_run in Hrun.
    destruct (Z.leb_spec q 0); [done|].
    destruct (prices !! sym) as [price|]; [|done].
    destruct (Z.ltb_spec (cash_as_of (or_now ts now) self) (price * q));
      [done|].
    appended_in Hrun. rewrite cash_as_of_append. simpl.
    rewrite decide_True by done. lia.
  - by destruct Hkind.
Qed.

Lemma accepted_debit_leaves_cash_witness :
  ∃ cash,
    cash_balance (Some 7)
      (mkAccount 1000
         [mkTransaction 0 Deposit None 0 None 1000;
          mkTransaction 7 Withdraw None 0 None (-1000)]) =
    (inr cash,
     mkAccount 1000
       [mkTransaction 0 Deposit None 0 None 1000;
        mkTransaction 7 Withdraw None 0 None (-1000)]) ∧
    0 ≤ cash.
Proof.
  apply (accepted_debit_leaves_cash (Call_withdraw 1000 (Some 7)) 9
           (mkAccount 1000 [mkTransaction 0 Deposit None 0 None 1000])).
  - reflexivity.
  - by left.
Defined.

(** ** Dates before the first record *)

Section before.
Implicit Types (self : Account) (l : list Transaction).

Lemma replay_before_first_record T l :
  Forall (λ tx, T < timestamp tx) l →
  replay_loop T (sorted_by_timestamp l) (0, ∅) = (0, ∅).
Proof.
  intros Hl.
  rewrite replay_loop_chronological
    by apply sorted_by_timestamp_chronological.
  rewrite recorded_up_to_none; [done|].
  by rewrite sorted_by_timestamp_perm.
Qed.
End before.

(** X10: as of an instant earlier than every record of the log, for
    instance one before the account was opened, the cash balance is 0, the
    holdings are empty, the portfolio value is 0 and the profit is minus
    the initial deposit; a withdrawal of any positive amount and a
    purchase of any positive quantity of a priced symbol dated at that
    instant are refused with [InsufficientFundsError]. *)
Theorem nothing_before_first_record (self : Account) (T : Z) :
  Forall (λ tx, T < timestamp tx) (_transactions self) →
  cash_balance (Some T) self = (inr 0, self) ∧
  holdings (Some T) self = (inr ∅, self) ∧
  portfolio_value (Some T) self = (inr 0, self) ∧
  profit_loss (Some T) self = (inr (- _initial_deposit self), self) ∧
  (∀ amount now, 0 < amount →
     withdraw amount (Some T) now self =
     (inl InsufficientFundsError, self)) ∧
  (∀ symbol quantity now, 0 < quantity → is_Some (prices !! symbol) →
     buy symbol quantity (Some T) now self =
     (inl InsufficientFundsError, self)).
Proof.
  intros Hl. pose proof (replay_before_first_record T _ Hl) as Hreplay.
  assert (cash_as_of T self = 0) as Hcash.
  { unfold cash_as_of. by rewrite Hreplay. }
  split_and!.
  - by rewrite cash_balance_run, Hcash.
  - unfold holdings. run_method. rewrite Hreplay. simpl.
    by rewrite map_filter_empty.
  - unfold portfolio_value. run_method. rewrite Hreplay. simpl.
    by rewrite map_to_list_empty.
  - unfold profit_loss, portfolio_value. run_method. rewrite Hreplay. simpl.
    by rewrite map_to_list_empty.
  - intros amount now Hpos. rewrite withdraw_run. simpl. rewrite Hcash.
    destruct (Z.leb_spec amount 0); [lia|].
    by destruct (Z.ltb_spec 0 amount); [|lia].
  - intros symbol quantity now Hpos [price Hprice].
    rewrite buy_run, Hprice. simpl. rewrite Hcash.
    pose proof (prices_positive _ _ Hprice).
    destruct (Z.leb_spec quantity 0); [lia|].
    by destruct (Z.ltb_spec 0 (price * quantity)); [|nia].
Qed.

Lemma nothing_before_first_record_witness :
  let self := mkAccount 100 [mkTransaction 50 Deposit None 0 None 100] in
  cash_balance (Some 10) self = (inr 0, self) ∧
  holdings (Some 10) self = (inr ∅, self) ∧
  portfolio_value (Some 10) self = (inr 0, self) ∧
  profit_loss (Some 10) self = (inr (- 100), self) ∧
  (∀ amount now, 0 < amount →
     withdraw amount (Some 10) now self =
     (inl InsufficientFundsError, self)) ∧
  (∀ symbol quantity now, 0 < quantity → is_Some (prices !! symbol) →
     buy symbol quantity (Some 10) now self =
     (inl InsufficientFundsError, self)).
Proof.
  apply (nothing_before_first_record
           (mkAccount 100 [mkTransaction 50 Deposit None 0 None 100]) 10).
  repeat constructor.
Defined.

(** ** The default date of the queries *)

Section latest.
Implicit Types (self : Account) (l : list Transaction).

Lemma max_timestamp_attained l m :
  max_timestamp l = Some m → ∃ tx, tx ∈ l ∧ timestamp tx = m.
Proof.
  revert m. induction l as [|tx l IH]; intros m Hm; [done|].
  simpl in Hm. destruct (max_timestamp l) as [m'|].
  - injection Hm as <-.
    destruct (Z.max_spec (timestamp tx) m') as [[_ ->]|[_ ->]].
    + destruct (IH m' eq_refl) as (tx' & Hin & Hts).
      exists tx'. split; [by apply list_elem_of_further|done].
    + exists tx. split; [by apply list_elem_of_here|done].
  - injection Hm as <-. exists tx. split; [by apply list_elem_of_here|done].
Qed.

Lemma max_timestamp_nonempty l : l ≠ [] → is_Some (max_timestamp l).
Proof.
  destruct l as [|tx l]; [done|]. intros _. simpl.
  by destruct (max_timestamp l).
Qed.

Lemma reachable_nonempty self : reachable self → _transactions self ≠ [].
Proof.
  induction 1 as [d now self Hnew|self c now r self' _ IH Hrun].
  - rewrite Account_new_run in Hnew.
    destruct (d <=? 0); [done|]. by injection Hnew as <-.
  - destruct (perform_cases c now self) as [[e He]|[tx [Htx _]]].
    + rewrite He in Hrun. by injection Hrun as _ <-.
    + rewrite Htx in Hrun. injection Hrun as _ <-. simpl.
      by destruct (_transactions self).
Qed.
End latest.

(** X11: [_latest_timestamp] raises [ValueError] on an empty log; on any
    other log it returns the greatest timestamp recorded: the timestamp of
    some record, with no record dated later, wherever that record stands
    in the log. *)
Theorem latest_timestamp_is_greatest (self : Account) :
  match _transactions self with
  | [] => _latest_timestamp self = (inl ValueError, self)
  | _ :: _ =>
      ∃ m, _latest_timestamp self = (inr m, self) ∧
           (∃ tx, tx ∈ _transactions self ∧ timestamp tx = m) ∧
           ∀ tx, tx ∈ _transactions self → timestamp tx ≤ m
  end.
Proof.
  unfold _latest_timestamp. run_method.
  destruct (_transactions self) as [|tx l] eqn:Hlog; [done|].
  destruct (max_timestamp_nonempty (tx :: l)) as [m Hm]; [done|].
  rewrite Hm. exists m. split_and!; [done| |].
  - by apply max_timestamp_attained.
  - apply Forall_forall. by apply max_timestamp_bound.
Qed.

(** X12: on an account built by calls of the mutators, the queries called
    without a date do not raise: the log is never empty and every symbol
    it names is priced.  Each returns what it returns as of the greatest
    timestamp recorded, so it counts every record of the log, those dated
    after the clock included. *)
Theorem default_date_is_latest (self : Account) :
  reachable self →
  ∃ (m cash value profit : Z) (h : gmap string Z),
    _latest_timestamp self = (inr m, self) ∧
    (∀ tx, tx ∈ _transactions self → timestamp tx ≤ m) ∧
    cash_balance None self = (inr cash, self) ∧
    cash_balance (Some m) self = (inr cash, self) ∧
    holdings None self = (inr h, self) ∧
    holdings (Some m) self = (inr h, self) ∧
    portfolio_value None self = (inr value, self) ∧
    portfolio_value (Some m) self = (inr value, self) ∧
    profit_loss None self = (inr profit, self) ∧
    profit_loss (Some m) self = (inr profit, self).
Proof.
  intros Hr. pose proof (reachable_nonempty _ Hr) as Hne.
  apply reachable_symbols_priced in Hr.
  destruct (max_timestamp_nonempty _ Hne) as [m Hm].
  pose proof (max_timestamp_bound _ _ Hm) as Hall.
  assert (_latest_timestamp self = (inr m, self)) as Hlatest.
  { unfold _latest_timestamp. run_method. by rewrite Hm. }
  assert (cash_balance None self = cash_balance (Some m) self) as Hcash.
  { unfold cash_balance. run_method. by rewrite Hm. }
  assert (holdings None self = holdings (Some m) self) as Hheld.
  { unfold holdings. run_method. by rewrite Hm. }
  assert (portfolio_value None self = portfolio_value (Some m) self)
    as Hvalue.
  { unfold portfolio_value. run_method. by rewrite Hm. }
  assert (profit_loss None self = profit_loss (Some m) self) as Hprofit.
  { unfold profit_loss. unfold mbind at 1 3, M_bind at 1 3.
    by rewrite Hvalue. }
  destruct (holdings_run m self) as (h & Hh & _).
  eexists m, _, _, _, h.
  rewrite Hcash, Hheld, Hvalue, Hprofit.
  rewrite profit_loss_run, portfolio_value_run, cash_balance_run by done.
  split_and!; try done.
  by apply Forall_forall.
Qed.

Lemma default_date_is_latest_witness :
  let self :=
    mkAccount 1000
      [mkTransaction 0 Deposit None 0 None 1000;
       mkTransaction 90 Deposit None 0 None 50] in
  ∃ (m cash value profit : Z) (h : gmap string Z),
    _latest_timestamp self = (inr m, self) ∧
    (∀ tx, tx ∈ _transactions self → timestamp tx ≤ m) ∧
    cash_balance None self = (inr cash, self) ∧
    cash_balance (Some m) self = (inr cash, self) ∧
    holdings None self = (inr h, self) ∧
    holdings (Some m) self = (inr h, self) ∧
    portfolio_value None self = (inr value, self) ∧
    portfolio_value (Some m) self = (inr value, self) ∧
    profit_loss None self = (inr profit, self) ∧
    profit_loss (Some m) self = (inr profit, self).
Proof.
  apply (default_date_is_latest
           (mkAccount 1000
              [mkTransaction 0 Deposit None 0 None 1000;
               mkTransaction 90 Deposit None 0 None 50])).
  apply (reachable_call
           (mkAccount 1000 [mkTransaction 0 Deposit None 0 None 1000])
           (Call_deposit 50 (Some 90)) 1 (inr tt)); [|reflexivity].
  by apply (reachable_new 1000 0).
Defined.

(** ** The order of recording *)

Section distinct.
Implicit Types (tx : Transaction) (l : list Transaction).

Lemma distinct_timestamps l x y :
  NoDup (timestamp <$> l) → x ∈ l → y ∈ l →
  timestamp x = timestamp y → x = y.
Proof.
  revert x y.
  induction l as [|tx l IH]; intros x y Hnd Hx Hy Hts; [by inversion Hx|].
  rewrite fmap_cons in Hnd. apply NoDup_cons in Hnd as [Hnotin Hnd].
  apply elem_of_cons in Hx as [->|Hx], Hy as [->|Hy]; [done| | |by apply IH].
  - exfalso. apply Hnotin. rewrite Hts. by apply list_elem_of_fmap_2.
  - exfalso. apply Hnotin. rewrite <- Hts. by apply list_elem_of_fmap_2.
Qed.

(** With no two records of the same date, the sort puts the records of a
    log in one order whatever the order of recording. *)
Lemma sorted_by_timestamp_distinct l1 l2 :
  l1 ≡ₚ l2 → NoDup (timestamp <$> l1) →
  sorted_by_timestamp l1 = sorted_by_timestamp l2.
Proof.
  intros Hp Hnd.
  apply (StronglySorted_unique_strong
           (λ x y : Transaction, timestamp x ≤ timestamp y)).
  - intros x y Hx Hy Hxy Hyx.
    apply (distinct_timestamps l1); [done| | |lia].
    + by rewrite sorted_by_timestamp_perm in Hx.
    + by rewrite sorted_by_timestamp_perm, <- Hp in Hy.
  - apply sorted_by_timestamp_chronological.
  - apply sorted_by_timestamp_chronological.
  - by rewrite !sorted_by_timestamp_perm.
Qed.
End distinct.

(** X13: when no two records bear the same timestamp, the replay, and
    with it the cash balance, the holdings, the portfolio value and the
    profit as of any instant, depend on which records the log holds and
    not on the order in which they were recorded: two such logs that are
    permutations of each other give the same answers. *)
Theorem replay_ignores_recording_order (initial_deposit : Z)
    (l1 l2 : list Transaction) (T : Z) :
  l1 ≡ₚ l2 →
  NoDup (timestamp <$> l1) →
  let a1 := mkAccount initial_deposit l1 in
  let a2 := mkAccount initial_deposit l2 in
  (_apply_transactions_up_to T a1).1 = (_apply_transactions_up_to T a2).1 ∧
  (cash_balance (Some T) a1).1 = (cash_balance (Some T) a2).1 ∧
  (holdings (Some T) a1).1 = (holdings (Some T) a2).1 ∧
  (portfolio_value (Some T) a1).1 = (portfolio_value (Some T) a2).1 ∧
  (profit_loss (Some T) a1).1 = (profit_loss (Some T) a2).1.
Proof.
  intros Hp Hnd. cbv zeta.
  pose proof (sorted_by_timestamp_distinct l1 l2 Hp Hnd) as Hsorted.
  assert ((portfolio_value (Some T) (mkAccount initial_deposit l1)).1 =
          (portfolio_value (Some T) (mkAccount initial_deposit l2)).1)
    as Hvalue.
  { unfold portfolio_value. run_method. simpl. rewrite Hsorted.
    destruct (replay_loop T (sorted_by_timestamp l2) (0, ∅)) as [cash held].
    simpl. by destruct (market_value_loop (map_to_list held) 0). }
  split_and!; [..|done|].
  - unfold _apply_transactions_up_to. run_method. simpl. by rewrite Hsorted.
  - unfold cash_balance. run_method. simpl. rewrite Hsorted.
    by destruct (replay_loop T (sorted_by_timestamp l2) (0, ∅)).
  - unfold holdings. run_method. simpl. rewrite Hsorted.
    by destruct (replay_loop T (sorted_by_timestamp l2) (0, ∅)).
  - unfold profit_loss. unfold mbind at 1 3, M_bind at 1 3.
    pose proof (portfolio_value_read_only (Some T)
                  (mkAccount initial_deposit l1)) as H1.
    pose proof (portfolio_value_read_only (Some T)
                  (mkAccount initial_deposit l2)) as H2.
    destruct (portfolio_value (Some T) (mkAccount initial_deposit l1))
      as [r1 s1].
    destruct (portfolio_value (Some T) (mkAccount initial_deposit l2))
      as [r2 s2].
    simpl in *. subst. by destruct r2.
Qed.

Lemma replay_ignores_recording_order_witness :
  let a1 :=
    mkAccount 1000
      [mkTransaction 0 Deposit None 0 None 1000;
       mkTransaction 9 Withdraw None 0 None (-100)] in
  let a2 :=
    mkAccount 1000
      [mkTransaction 9 Withdraw None 0 None (-100);
       mkTransaction 0 Deposit None 0 None 1000] in
  (_apply_transactions_up_to 5 a1).1 = (_apply_transactions_up_to 5 a2).1 ∧
  (cash_balance (Some 5) a1).1 = (cash_balance (Some 5) a2).1 ∧
  (holdings (Some 5) a1).1 = (holdings (Some 5) a2).1 ∧
  (portfolio_value (Some 5) a1).1 = (portfolio_value (Some 5) a2).1 ∧
  (profit_loss (Some 5) a1).1 = (profit_loss (Some 5) a2).1.
Proof.
  apply (replay_ignores_recording_order 1000
           [mkTransaction 0 Deposit None 0 None 1000;
            mkTransaction 9 Withdraw None 0 None (-100)]
           [mkTransaction 9 Withdraw None 0 None (-100);
            mkTransaction 0 Deposit None 0 None 1000] 5).
  - apply Permutation_swap.
  - simpl. apply NoDup_cons. split; [|apply NoDup_singleton].
    intros Hin. by apply list_elem_of_singleton in Hin.
Defined.

(** ** Opening an account *)

(** X14: [Account(initial_deposit)] raises [ValueError] when the deposit
    is zero or negative.  Otherwise it gives an account whose log is the
    single deposit of that amount dated at the clock, and whose queries
    called without a date return: cash balance and portfolio value the
    initial deposit, holdings empty, profit 0. *)
Theorem opening_an_account (initial_deposit now : Z) :
  if decide (initial_deposit ≤ 0)
  then Account_new initial_deposit now = inl ValueError
  else
    ∃ self,
      Account_new initial_deposit now = inr self ∧
      _transactions self =
        [mkTransaction now Deposit None 0 None initial_deposit] ∧
      cash_balance None self = (inr initial_deposit, self) ∧
      holdings None self = (inr ∅, self) ∧
      portfolio_value None self = (inr initial_deposit, self) ∧
      profit_loss None self = (inr 0, self).
Proof.
  rewrite Account_new_run.
  destruct (decide (initial_deposit ≤ 0)) as [Hle|Hgt].
  - by destruct (Z.leb_spec initial_deposit 0); [|lia].
  - destruct (Z.leb_spec initial_deposit 0); [lia|].
    eexists. split; [done|]. split; [done|].
    set (self := mkAccount initial_deposit
                   [mkTransaction now Deposit None 0 None initial_deposit]).
    assert (portfolio_value None self = (inr initial_deposit, self))
      as Hvalue.
    { unfold portfolio_value. run_method. simpl.
      destruct (Z.ltb_spec now now); [lia|]. simpl.
      rewrite map_to_list_empty. simpl. do 2 f_equal. lia. }
    split_and!; [..|done|].
    + unfold cash_balance. run_method. simpl.
      by destruct (Z.ltb_spec now now); [lia|].
    + unfold holdings. run_method. simpl.
      destruct (Z.ltb_spec now now); [lia|]. simpl.
      by rewrite map_filter_empty.
    + unfold profit_loss. unfold mbind at 1, M_bind at 1.
      rewrite Hvalue. subst self. run_method. simpl. do 2 f_equal. lia.
Qed.

(** ** The first definition of [sell] *)

Section first_sell.
Implicit Types (self : Account) (l : list Transaction).

Lemma symbols_priced_unpriced sym l :
  symbols_priced l → prices !! sym = None → net_quantity sym l = 0.
Proof.
  unfold symbols_priced. intros Hl Hsym.
  induction Hl as [|tx l Htx _ IH]; [done|].
  rewrite net_quantity_cons, IH.
  rewrite decide_False; [done|].
  intros [_ Hs]. destruct (Htx _ Hs) as [p Hp]. congruence.
Qed.
End first_sell.

(** X15: the first definition of [sell] in the class tests the holdings
    before it looks the price up: on an account built by calls of the
    mutators, a sale of a positive quantity of a symbol that is not in the
    price table is refused with [InsufficientHoldingsError], not with
    [InvalidSymbolError], and leaves the account as it was. *)
Theorem first_sell_unknown_symbol (self : Account) (symbol : string)
    (quantity : Z) (timestamp : option Z) (now : Z) :
  reachable self →
  0 < quantity →
  prices !! symbol = None →
  sell_first symbol quantity timestamp now self =
  (inl InsufficientHoldingsError, self).
Proof.
  intros Hr Hq Hsym. rewrite sell_first_run.
  apply reachable_symbols_priced in Hr.
  rewrite held_as_of_priced by done.
  rewrite symbols_priced_unpriced;
    [|by apply symbols_priced_up_to|done].
  destruct (Z.leb_spec quantity 0); [lia|].
  by destruct (Z.ltb_spec 0 quantity); [|lia].
Qed.

Lemma first_sell_unknown_symbol_witness :
  sell_first "MSFT" 1 None 5
    (mkAccount 1000 [mkTransaction 0 Deposit None 0 None 1000]) =
  (inl InsufficientHoldingsError,
   mkAccount 1000 [mkTransaction 0 Deposit None 0 None 1000]).
Proof.
  apply first_sell_unknown_symbol; [|lia|reflexivity].
  by apply (reachable_new 1000 0).
Defined.



(** * The replay in binary64 *)

Section rounding.
Implicit Types (tx : Binary64.Transaction)
  (l : list Binary64.Transaction) (st : float * gmap string float).









End rounding.





